(** * Barrier-option pricing (calculoexoticas.py): model and properties

    The module defines two Python functions, [norm_cdf] and
    [black_scholes_barrier_option].  They are embedded twice, each time
    from the source text, operator by operator.

    Part I, over the real numbers.  A computation takes the interpreter
    state and gives back a returned value or a raised exception, together
    with the state afterwards.  A Python float is the real number it
    denotes and arithmetic is exact:
    - [/] raises [ZeroDivisionError] on a zero divisor, [math.log] raises
      [ValueError] on a non-positive argument and [math.sqrt] on a negative
      one; [math.exp], [math.erf] and [**] with the literal exponent 2
      always return;
    - operands are evaluated left to right, arguments before the call;
    - [math.erf] is the Gauss error function, defined as a Riemann integral.
    This part says which formula a call evaluates and what the exact value
    of that formula is.  Rounding, underflow, overflow, infinities and NaN
    are outside it, so it is used only where they play no role: the sign of
    a price (C3), the formula of [norm_cdf] (C6), the two intermediates that
    are never read (C8), and two calls with T = 0 or sigma = 0 whose float
    arithmetic is exact.

    Part II, module [F64], over binary64 floats.  A float is an IEEE 754
    binary64 number, every operation rounds, and the exceptions are those
    of CPython's float arithmetic and [math] wrappers, OverflowError
    included.  Everything about which inputs make a call raise, which
    exception it raises, and exact relations between returned floats is
    stated there. *)

From Stdlib Require Import Reals Lra String Bool.
From Stdlib Require Floats.
Open Scope R_scope.

(** ** The Gauss error function *)

Definition gauss (t : R) : R := exp (- (t * t)).

Lemma gauss_continuity : continuity gauss.
Proof. unfold gauss. reg. Qed.

Lemma gauss_pos t : 0 < gauss t.
Proof. apply exp_pos. Qed.


Lemma gauss_le_1 t : gauss t <= 1.
Proof.
  unfold gauss. rewrite <- exp_0.
  destruct (Req_dec t 0) as [-> | Ht].
  - right. f_equal. ring.
  - left. apply exp_increasing. nra.
Qed.

Lemma gauss_integrable (a b : R) : Riemann_integrable gauss a b.
Proof.
  destruct (Rle_dec a b) as [Hab | Hab].
  - apply continuity_implies_RiemannInt; [exact Hab | intros; apply gauss_continuity].
  - apply RiemannInt_P1, continuity_implies_RiemannInt;
      [lra | intros; apply gauss_continuity].
Qed.

(** The integral of [gauss] from [a] to [b] (oriented: it changes sign when
    the bounds are swapped). *)
Definition gauss_int (a b : R) : R := RiemannInt (gauss_integrable a b).

(** erf(x) = 2/sqrt(pi) * integral from 0 to x of exp(-t^2) dt *)
Definition erf (x : R) : R := 2 / sqrt PI * gauss_int 0 x.

(** The standard normal distribution function, as a real function. *)
Definition Phi (x : R) : R := (1 + erf (x / sqrt 2)) / 2.

Lemma gauss_int_refl a : gauss_int a a = 0.
Proof. apply RiemannInt_P9. Qed.

Lemma gauss_int_chasles a b c : gauss_int a b + gauss_int b c = gauss_int a c.
Proof. apply RiemannInt_P26. Qed.


Lemma gauss_int_nonneg a b : a <= b -> 0 <= gauss_int a b.
Proof.
  intros Hab. unfold gauss_int.
  destruct (RiemannInt_const_bound (l:=0) (u:=1) (gauss_integrable a b) Hab)
    as [Hlow _].
  - intros t _. split; [left; apply gauss_pos | apply gauss_le_1].
  - lra.
Qed.


Lemma erf_scale_pos : 0 < 2 / sqrt PI.
Proof. apply Rdiv_lt_0_compat; [lra |]. apply sqrt_lt_R0, PI_RGT_0. Qed.

Lemma erf_0 : erf 0 = 0.
Proof. unfold erf. rewrite gauss_int_refl. ring. Qed.


Lemma erf_monotone x y : x <= y -> erf x <= erf y.
Proof.
  intros Hxy. unfold erf.
  apply Rmult_le_compat_l; [left; apply erf_scale_pos |].
  rewrite <- (gauss_int_chasles 0 x y).
  pose proof (gauss_int_nonneg x y Hxy). lra.
Qed.

Lemma sqrt2_pos : 0 < sqrt 2.
Proof. apply sqrt_lt_R0. lra. Qed.

Lemma Phi_0 : Phi 0 = 1 / 2.
Proof. unfold Phi. replace (0 / sqrt 2) with 0 by (unfold Rdiv; ring). rewrite erf_0. lra. Qed.

Lemma Phi_monotone x y : x <= y -> Phi x <= Phi y.
Proof.
  intros Hxy. unfold Phi.
  assert (erf (x / sqrt 2) <= erf (y / sqrt 2)).
  { apply erf_monotone. unfold Rdiv.
    apply Rmult_le_compat_r; [| exact Hxy].
    left. apply Rinv_0_lt_compat, sqrt2_pos. }
  lra.
Qed.


(** ** The pricing formulas as real expressions *)

Definition d1_of (S K T r sigma : R) : R :=
  (ln (S / K) + (r + 0.5 * sigma ^ 2) * T) / (sigma * sqrt T).

Definition d2_of (S K T r sigma : R) : R :=
  d1_of S K T r sigma - sigma * sqrt T.

Definition lambda_of (r sigma : R) : R :=
  (r + 0.5 * sigma ^ 2) / sigma ^ 2.

Definition y1_of (S T r sigma H : R) : R :=
  ln (H / S) / (sigma * sqrt T) + lambda_of r sigma * sigma * sqrt T.

(** The vanilla Black-Scholes prices. *)
Definition vanilla_call (S K T r sigma : R) : R :=
  S * Phi (d1_of S K T r sigma) - K * exp (- r * T) * Phi (d2_of S K T r sigma).

Definition vanilla_put (S K T r sigma : R) : R :=
  K * exp (- r * T) * Phi (- d2_of S K T r sigma) - S * Phi (- d1_of S K T r sigma).

(** The expression of lines 39-40 (the knock-in call), which lines 35-36
    subtract from the vanilla call. *)
Definition call_barrier_term (S K T r sigma H : R) : R :=
  let d1 := d1_of S K T r sigma in
  let d2 := d2_of S K T r sigma in
  let lambda_ := lambda_of r sigma in
  let y1 := y1_of S T r sigma H in
  H * Phi (y1 - sigma * sqrt T) - H * Phi (- y1 + sigma * sqrt T) -
  S * Phi (- d1 + 2 * lambda_ * sigma * sqrt T) +
  K * exp (- r * T) * Phi (- d2 + 2 * lambda_ * sigma * sqrt T).

(** The expression of lines 48-49 (the knock-in put), which lines 44-45
    subtract from the vanilla put. *)
Definition put_barrier_term (S K T r sigma H : R) : R :=
  let d1 := d1_of S K T r sigma in
  let d2 := d2_of S K T r sigma in
  let lambda_ := lambda_of r sigma in
  let y1 := y1_of S T r sigma H in
  H * Phi (- y1 + sigma * sqrt T) - H * Phi (y1 - sigma * sqrt T) -
  S * Phi (d1 - 2 * lambda_ * sigma * sqrt T) +
  K * exp (- r * T) * Phi (d2 - 2 * lambda_ * sigma * sqrt T).

(** The value returned for a valid selector pair (lines 33-50). *)
Definition price_of (S K T r sigma H : R) (option_type barrier_type : string) : R :=
  if (option_type =? "call")%string then
    if (barrier_type =? "out")%string
    then vanilla_call S K T r sigma - call_barrier_term S K T r sigma H
    else call_barrier_term S K T r sigma H
  else
    if (barrier_type =? "out")%string
    then vanilla_put S K T r sigma - put_barrier_term S K T r sigma H
    else put_barrier_term S K T r sigma H.

(** What lines 26-31 need in order to compute [d1], [d2], [lambda_], [x1],
    [y1] and [y]: every divisor non-zero, every argument of [math.log]
    positive, the argument of [math.sqrt] non-negative.  Listed in the order
    in which the interpreter meets them. *)
Definition intermediates_defined (S K T sigma H : R) : Prop :=
  K <> 0 /\ 0 < S / K /\ 0 <= T /\ sigma * sqrt T <> 0 /\ sigma ^ 2 <> 0 /\
  H <> 0 /\ 0 < S / H /\ S <> 0 /\ 0 < H / S /\
  S * K <> 0 /\ 0 < H ^ 2 / (S * K).

Lemma ln4_bounds : 1 < ln 4 < 2.
Proof.
  pose proof exp_le_3 as He3.
  pose proof (exp_ineq1 1 ltac:(lra)) as He2.
  split.
  - assert (Hlo : ln (exp 1) < ln 4)
      by (apply ln_increasing; [apply exp_pos | lra]).
    rewrite ln_exp in Hlo. exact Hlo.
  - assert (Hup : ln 4 < ln (exp (1 + 1))).
    { apply ln_increasing; [lra |]. rewrite exp_plus. nra. }
    rewrite ln_exp in Hup. lra.
Qed.

(** ** Python outcomes *)

(** The two exception classes the module can raise.  [ValueError] carries
    its message: the module raises it with a message of its own, and
    [math.log] and [math.sqrt] raise it with CPython's. *)
Inductive exn : Type :=
| ZeroDivisionError
| ValueError (msg : string).

Inductive result (A : Type) : Type :=
| Return (a : A)
| Raise (e : exn).
Arguments Return {A} a.
Arguments Raise {A} e.

Definition math_domain_error : exn := ValueError "math domain error".

(** The exception of the final [else] branch (line 52). *)
Definition selector_message : string :=
  "Invalid option or barrier type. Use 'call' or 'put' for option_type and 'in' or 'out' for barrier_type.".

Definition InvalidSelector : exn := ValueError selector_message.

(** [mentions lit msg]: the literal occurs in the message. *)
Definition mentions (lit msg : string) : bool :=
  match index 0 lit msg with
  | Some _ => true
  | None => false
  end.

(** The accepted (option_type, barrier_type) pairs. *)
Definition valid_selector (option_type barrier_type : string) : Prop :=
  (option_type = "call"%string \/ option_type = "put"%string) /\
  (barrier_type = "in"%string \/ barrier_type = "out"%string).

Section Python.

(** The interpreter state (module namespace, output streams, ...).  The
    module keeps no state of its own, so the type is left open. *)
Variable world : Type.

Definition Py (A : Type) : Type := world -> result A * world.

Definition ret {A} (a : A) : Py A := fun w => (Return a, w).

Definition raise {A} (e : exn) : Py A := fun w => (Raise e, w).

Definition bind {A B} (m : Py A) (k : A -> Py B) : Py B :=
  fun w =>
    match m w with
    | (Return a, w') => k a w'
    | (Raise e, w') => (Raise e, w')
    end.

(** A name or a literal used as an expression. *)
Definition const (x : R) : Py R := ret x.
Coercion const : R >-> Py.

(** Binary operators evaluate the left operand, then the right one, then
    apply the operation. *)
Definition binop (op : R -> R -> Py R) (a b : Py R) : Py R :=
  bind a (fun x => bind b (fun y => op x y)).

(** A call evaluates its argument, then runs the function. *)
Definition call {A B} (f : A -> Py B) (arg : Py A) : Py B := bind arg f.

Definition truediv (x y : R) : Py R :=
  if Req_dec_T y 0 then raise ZeroDivisionError else ret (x / y).

Definition py_add : Py R -> Py R -> Py R := binop (fun x y => ret (x + y)).
Definition py_sub : Py R -> Py R -> Py R := binop (fun x y => ret (x - y)).
Definition py_mul : Py R -> Py R -> Py R := binop (fun x y => ret (x * y)).
Definition py_div : Py R -> Py R -> Py R := binop truediv.
Definition py_neg (a : Py R) : Py R := bind a (fun x => ret (- x)).
Definition py_pow (a : Py R) (n : nat) : Py R := bind a (fun x => ret (x ^ n)).

Definition math_log (x : R) : Py R :=
  if Rlt_dec 0 x then ret (ln x) else raise math_domain_error.

Definition math_sqrt (x : R) : Py R :=
  if Rle_dec 0 x then ret (sqrt x) else raise math_domain_error.

Definition math_exp (x : R) : Py R := ret (exp x).

Definition math_erf (x : R) : Py R := ret (erf x).

Declare Scope py_scope.
Delimit Scope py_scope with py.
Bind Scope py_scope with Py.
Notation "a + b" := (py_add a b) : py_scope.
Notation "a - b" := (py_sub a b) : py_scope.
Notation "a * b" := (py_mul a b) : py_scope.
Notation "a / b" := (py_div a b) : py_scope.
Notation "- a" := (py_neg a) : py_scope.
Notation "a ** n" := (py_pow a n%nat) (at level 30, right associativity) : py_scope.
Notation "x <- m ;; k" := (bind m%py (fun x => k%py))
  (at level 100, m at next level, right associativity) : py_scope.

(** ** The module's functions *)

(** Lines 3-10. *)
Definition norm_cdf (x : R) : Py R :=
  ((1.0 + call math_erf (x / call math_sqrt 2.0)) / 2.0)%py.

(** Lines 12-52.  Parameters [S K T r sigma H] are floats, [option_type]
    and [barrier_type] strings. *)
Definition black_scholes_barrier_option
    (S K T r sigma H : R) (option_type barrier_type : string) : Py R :=
  (d1 <- (call math_log (S / K) + (r + 0.5 * sigma ** 2) * T) / (sigma * call math_sqrt T) ;;
   d2 <- d1 - sigma * call math_sqrt T ;;
   lambda_ <- (r + 0.5 * sigma ** 2) / sigma ** 2 ;;
   x1 <- call math_log (S / H) / (sigma * call math_sqrt T) + lambda_ * sigma * call math_sqrt T ;;
   y1 <- call math_log (H / S) / (sigma * call math_sqrt T) + lambda_ * sigma * call math_sqrt T ;;
   y <- (call math_log (H ** 2 / (S * K)) + (r + 0.5 * sigma ** 2) * T) / (sigma * call math_sqrt T) ;;
   if (option_type =? "call")%string && (barrier_type =? "out")%string then
     call_price <-
       (S * call norm_cdf d1 - K * call math_exp (- r * T) * call norm_cdf d2) -
       (H * call norm_cdf (y1 - sigma * call math_sqrt T) - H * call norm_cdf (- y1 + sigma * call math_sqrt T) -
        S * call norm_cdf (- d1 + 2 * lambda_ * sigma * call math_sqrt T) + K * call math_exp (- r * T) * call norm_cdf (- d2 + 2 * lambda_ * sigma * call math_sqrt T)) ;;
     ret call_price
   else if (option_type =? "call")%string && (barrier_type =? "in")%string then
     call_price <-
       H * call norm_cdf (y1 - sigma * call math_sqrt T) - H * call norm_cdf (- y1 + sigma * call math_sqrt T) -
       S * call norm_cdf (- d1 + 2 * lambda_ * sigma * call math_sqrt T) + K * call math_exp (- r * T) * call norm_cdf (- d2 + 2 * lambda_ * sigma * call math_sqrt T) ;;
     ret call_price
   else if (option_type =? "put")%string && (barrier_type =? "out")%string then
     put_price <-
       (K * call math_exp (- r * T) * call norm_cdf (- d2) - S * call norm_cdf (- d1)) -
       (H * call norm_cdf (- y1 + sigma * call math_sqrt T) - H * call norm_cdf (y1 - sigma * call math_sqrt T) -
        S * call norm_cdf (d1 - 2 * lambda_ * sigma * call math_sqrt T) + K * call math_exp (- r * T) * call norm_cdf (d2 - 2 * lambda_ * sigma * call math_sqrt T)) ;;
     ret put_price
   else if (option_type =? "put")%string && (barrier_type =? "in")%string then
     put_price <-
       H * call norm_cdf (- y1 + sigma * call math_sqrt T) - H * call norm_cdf (y1 - sigma * call math_sqrt T) -
       S * call norm_cdf (d1 - 2 * lambda_ * sigma * call math_sqrt T) + K * call math_exp (- r * T) * call norm_cdf (d2 - 2 * lambda_ * sigma * call math_sqrt T) ;;
     ret put_price
   else
     raise InvalidSelector)%py.

(** The function with the two unused intermediates [x1] (line 29) and [y]
    (line 31) deleted; everything else is unchanged. *)
Definition black_scholes_barrier_option_without_x1_y
    (S K T r sigma H : R) (option_type barrier_type : string) : Py R :=
  (d1 <- (call math_log (S / K) + (r + 0.5 * sigma ** 2) * T) / (sigma * call math_sqrt T) ;;
   d2 <- d1 - sigma * call math_sqrt T ;;
   lambda_ <- (r + 0.5 * sigma ** 2) / sigma ** 2 ;;
   y1 <- call math_log (H / S) / (sigma * call math_sqrt T) + lambda_ * sigma * call math_sqrt T ;;
   if (option_type =? "call")%string && (barrier_type =? "out")%string then
     call_price <-
       (S * call norm_cdf d1 - K * call math_exp (- r * T) * call norm_cdf d2) -
       (H * call norm_cdf (y1 - sigma * call math_sqrt T) - H * call norm_cdf (- y1 + sigma * call math_sqrt T) -
        S * call norm_cdf (- d1 + 2 * lambda_ * sigma * call math_sqrt T) + K * call math_exp (- r * T) * call norm_cdf (- d2 + 2 * lambda_ * sigma * call math_sqrt T)) ;;
     ret call_price
   else if (option_type =? "call")%string && (barrier_type =? "in")%string then
     call_price <-
       H * call norm_cdf (y1 - sigma * call math_sqrt T) - H * call norm_cdf (- y1 + sigma * call math_sqrt T) -
       S * call norm_cdf (- d1 + 2 * lambda_ * sigma * call math_sqrt T) + K * call math_exp (- r * T) * call norm_cdf (- d2 + 2 * lambda_ * sigma * call math_sqrt T) ;;
     ret call_price
   else if (option_type =? "put")%string && (barrier_type =? "out")%string then
     put_price <-
       (K * call math_exp (- r * T) * call norm_cdf (- d2) - S * call norm_cdf (- d1)) -
       (H * call norm_cdf (- y1 + sigma * call math_sqrt T) - H * call norm_cdf (y1 - sigma * call math_sqrt T) -
        S * call norm_cdf (d1 - 2 * lambda_ * sigma * call math_sqrt T) + K * call math_exp (- r * T) * call norm_cdf (d2 - 2 * lambda_ * sigma * call math_sqrt T)) ;;
     ret put_price
   else if (option_type =? "put")%string && (barrier_type =? "in")%string then
     put_price <-
       H * call norm_cdf (- y1 + sigma * call math_sqrt T) - H * call norm_cdf (y1 - sigma * call math_sqrt T) -
       S * call norm_cdf (d1 - 2 * lambda_ * sigma * call math_sqrt T) + K * call math_exp (- r * T) * call norm_cdf (d2 - 2 * lambda_ * sigma * call math_sqrt T) ;;
     ret put_price
   else
     raise InvalidSelector)%py.

(** ** Outcomes of a computation from a given state *)

(** [yields m w o]: run from state [w], [m] has outcome [o] and leaves the
    state as it was. *)
Definition yields {A} (m : Py A) (w : world) (o : result A) : Prop :=
  m w = (o, w).

Definition returns {A} (m : Py A) (w : world) (v : A) : Prop :=
  yields m w (Return v).

Definition raises {A} (m : Py A) (w : world) (e : exn) : Prop :=
  yields m w (Raise e).

Lemma yields_inj {A} (m : Py A) w o1 o2 : yields m w o1 -> yields m w o2 -> o1 = o2.
Proof. unfold yields. intros H1 H2. rewrite H1 in H2. congruence. Qed.

Lemma returns_inj {A} (m : Py A) w v1 v2 : returns m w v1 -> returns m w v2 -> v1 = v2.
Proof. intros H1 H2. pose proof (yields_inj _ _ _ _ H1 H2). congruence. Qed.

Lemma returns_not_raises {A} (m : Py A) w v e : returns m w v -> raises m w e -> False.
Proof. intros H1 H2. pose proof (yields_inj _ _ _ _ H1 H2). discriminate. Qed.

Lemma ret_returns {A} (a : A) w : returns (ret a) w a.
Proof. reflexivity. Qed.

Lemma const_returns (x : R) w : returns (const x) w x.
Proof. reflexivity. Qed.

Lemma raise_raises {A} e w : raises (@raise A e) w e.
Proof. reflexivity. Qed.

Lemma bind_yields {A B} (m : Py A) (k : A -> Py B) w a o :
  returns m w a -> yields (k a) w o -> yields (bind m k) w o.
Proof. unfold returns, yields, bind. intros -> ->. reflexivity. Qed.

Lemma bind_raises {A B} (m : Py A) (k : A -> Py B) w e :
  raises m w e -> raises (bind m k) w e.
Proof. unfold raises, yields, bind. intros ->. reflexivity. Qed.

Lemma bind_returns {A B} (m : Py A) (k : A -> Py B) w a b :
  returns m w a -> returns (k a) w b -> returns (bind m k) w b.
Proof. apply bind_yields. Qed.

Lemma binop_yields op (a b : Py R) w x y o :
  returns a w x -> returns b w y -> yields (op x y) w o -> yields (binop op a b) w o.
Proof.
  intros Ha Hb Ho. unfold binop.
  apply bind_yields with x; [exact Ha |].
  apply bind_yields with y; assumption.
Qed.

Lemma binop_raises_l op (a b : Py R) w e : raises a w e -> raises (binop op a b) w e.
Proof. apply bind_raises. Qed.

Lemma binop_raises_r op (a b : Py R) w x e :
  returns a w x -> raises b w e -> raises (binop op a b) w e.
Proof.
  intros Ha Hb. unfold binop.
  apply bind_yields with x; [exact Ha |]. apply bind_raises, Hb.
Qed.

Lemma call_yields {A B} (f : A -> Py B) arg w x o :
  returns arg w x -> yields (f x) w o -> yields (call f arg) w o.
Proof. apply bind_yields. Qed.

Lemma call_returns {A B} (f : A -> Py B) arg w x v :
  returns arg w x -> returns (f x) w v -> returns (call f arg) w v.
Proof. apply bind_yields. Qed.

Lemma bind_raises_later {A B} (m : Py A) (k : A -> Py B) w a e :
  returns m w a -> raises (k a) w e -> raises (bind m k) w e.
Proof. apply bind_yields. Qed.

Lemma call_raises_body {A B} (f : A -> Py B) arg w x e :
  returns arg w x -> raises (f x) w e -> raises (call f arg) w e.
Proof. apply bind_yields. Qed.

Lemma call_raises_arg {A B} (f : A -> Py B) arg w e :
  raises arg w e -> raises (call f arg) w e.
Proof. apply bind_raises. Qed.

Lemma add_returns (a b : Py R) w x y :
  returns a w x -> returns b w y -> returns (a + b)%py w (x + y).
Proof. intros Ha Hb. apply binop_yields with x y; [assumption | assumption | reflexivity]. Qed.

Lemma sub_returns (a b : Py R) w x y :
  returns a w x -> returns b w y -> returns (a - b)%py w (x - y).
Proof. intros Ha Hb. apply binop_yields with x y; [assumption | assumption | reflexivity]. Qed.

Lemma mul_returns (a b : Py R) w x y :
  returns a w x -> returns b w y -> returns (a * b)%py w (x * y).
Proof. intros Ha Hb. apply binop_yields with x y; [assumption | assumption | reflexivity]. Qed.

Lemma neg_returns (a : Py R) w x : returns a w x -> returns (- a)%py w (- x).
Proof. intros Ha. apply bind_yields with x; [assumption | reflexivity]. Qed.

Lemma pow_returns (a : Py R) n w x : returns a w x -> returns (a ** n)%py w (x ^ n).
Proof. intros Ha. apply bind_yields with x; [assumption | reflexivity]. Qed.

Lemma truediv_returns x y w : y <> 0 -> returns (truediv x y) w (x / y).
Proof. intros Hy. unfold truediv. destruct (Req_dec_T y 0); [contradiction | reflexivity]. Qed.

Lemma truediv_raises x w : raises (truediv x 0) w ZeroDivisionError.
Proof. unfold truediv. destruct (Req_dec_T 0 0); [reflexivity | contradiction]. Qed.

Lemma div_returns (a b : Py R) w x y :
  returns a w x -> returns b w y -> y <> 0 -> returns (a / b)%py w (x / y).
Proof. intros Ha Hb Hy. apply binop_yields with x y; [assumption | assumption | apply truediv_returns, Hy]. Qed.

Lemma div_raises (a b : Py R) w x :
  returns a w x -> returns b w 0 -> raises (a / b)%py w ZeroDivisionError.
Proof. intros Ha Hb. apply binop_yields with x 0; [assumption | assumption | apply truediv_raises]. Qed.

Lemma div_raises_zero (a b : Py R) w x y :
  returns a w x -> returns b w y -> y = 0 -> raises (a / b)%py w ZeroDivisionError.
Proof. intros Ha Hb ->. eapply div_raises; eassumption. Qed.

Lemma math_log_returns x w : 0 < x -> returns (math_log x) w (ln x).
Proof. intros Hx. unfold math_log. destruct (Rlt_dec 0 x); [reflexivity | contradiction]. Qed.

Lemma math_log_raises x w : x <= 0 -> raises (math_log x) w math_domain_error.
Proof. intros Hx. unfold math_log. destruct (Rlt_dec 0 x); [lra | reflexivity]. Qed.

Lemma math_sqrt_returns x w : 0 <= x -> returns (math_sqrt x) w (sqrt x).
Proof. intros Hx. unfold math_sqrt. destruct (Rle_dec 0 x); [reflexivity | contradiction]. Qed.

Lemma math_sqrt_raises x w : x < 0 -> raises (math_sqrt x) w math_domain_error.
Proof. intros Hx. unfold math_sqrt. destruct (Rle_dec 0 x); [lra | reflexivity]. Qed.

Lemma math_exp_returns x w : returns (math_exp x) w (exp x).
Proof. reflexivity. Qed.

Lemma math_erf_returns x w : returns (math_erf x) w (erf x).
Proof. reflexivity. Qed.

(** Evaluation of an expression whose operations all succeed: the value is
    built bottom-up, the side conditions (non-zero divisors, arguments in
    the domain of [math.log] and [math.sqrt]) are left as goals. *)
Ltac py_eval :=
  repeat first
    [ eapply const_returns
    | eapply ret_returns
    | eapply add_returns
    | eapply sub_returns
    | eapply mul_returns
    | eapply div_returns
    | eapply neg_returns
    | eapply pow_returns
    | eapply math_exp_returns
    | eapply math_erf_returns
    | eapply math_log_returns
    | eapply math_sqrt_returns
    | eapply call_returns
    | eapply bind_returns ].

Lemma norm_cdf_returns x w : returns (norm_cdf x) w (Phi x).
Proof.
  replace (Phi x) with ((1.0 + erf (x / sqrt 2.0)) / 2.0).
  - unfold norm_cdf. py_eval; try lra.
    replace 2.0 with 2 by lra. apply Rgt_not_eq, sqrt2_pos.
  - unfold Phi. replace 2.0 with 2 by lra. lra.
Qed.

Lemma returns_eq {A} (m : Py A) w v v' : returns m w v -> v = v' -> returns m w v'.
Proof. intros H <-. exact H. Qed.

(** Strict positivity of the arguments and divisors met on positive inputs. *)
Ltac py_pos :=
  repeat first
    [ assumption
    | apply Rdiv_lt_0_compat
    | apply Rinv_0_lt_compat
    | apply Rmult_lt_0_compat
    | apply sqrt_lt_R0
    | apply pow_lt
    | lra ].

Ltac py_side :=
  match goal with
  | |- _ <> 0 => apply Rgt_not_eq; py_pos
  | |- 0 < _ => py_pos
  | |- 0 <= _ => left; py_pos
  end.

(** As [py_eval], with calls of [norm_cdf] evaluated by its lemma. *)
Ltac py_run :=
  repeat first
    [ eapply call_returns; [| eapply norm_cdf_returns]
    | eapply const_returns
    | eapply ret_returns
    | eapply add_returns
    | eapply sub_returns
    | eapply mul_returns
    | eapply div_returns
    | eapply neg_returns
    | eapply pow_returns
    | eapply math_exp_returns
    | eapply math_log_returns
    | eapply math_sqrt_returns
    | eapply call_returns
    | eapply bind_returns ].

Ltac py_cond := first [ assumption | py_side ].

Lemma positive_defined S K T sigma H :
  0 < S -> 0 < K -> 0 < T -> 0 < sigma -> 0 < H ->
  intermediates_defined S K T sigma H.
Proof. intros. unfold intermediates_defined. repeat split; py_side. Qed.

Section DefinedInputs.

Variables S K T r sigma H : R.
Hypothesis Hdef : intermediates_defined S K T sigma H.

Lemma call_out_returns w :
  returns (black_scholes_barrier_option S K T r sigma H "call" "out") w
          (vanilla_call S K T r sigma - call_barrier_term S K T r sigma H).
Proof.
  destruct Hdef as (? & ? & ? & ? & ? & ? & ? & ? & ? & ? & ?).
  eapply returns_eq.
  - unfold black_scholes_barrier_option. py_run; py_cond.
  - reflexivity.
Qed.

Lemma call_in_returns w :
  returns (black_scholes_barrier_option S K T r sigma H "call" "in") w
          (call_barrier_term S K T r sigma H).
Proof.
  destruct Hdef as (? & ? & ? & ? & ? & ? & ? & ? & ? & ? & ?).
  eapply returns_eq.
  - unfold black_scholes_barrier_option. py_run; py_cond.
  - reflexivity.
Qed.

Lemma put_out_returns w :
  returns (black_scholes_barrier_option S K T r sigma H "put" "out") w
          (vanilla_put S K T r sigma - put_barrier_term S K T r sigma H).
Proof.
  destruct Hdef as (? & ? & ? & ? & ? & ? & ? & ? & ? & ? & ?).
  eapply returns_eq.
  - unfold black_scholes_barrier_option. py_run; py_cond.
  - reflexivity.
Qed.

Lemma put_in_returns w :
  returns (black_scholes_barrier_option S K T r sigma H "put" "in") w
          (put_barrier_term S K T r sigma H).
Proof.
  destruct Hdef as (? & ? & ? & ? & ? & ? & ? & ? & ? & ? & ?).
  eapply returns_eq.
  - unfold black_scholes_barrier_option. py_run; py_cond.
  - reflexivity.
Qed.

Lemma valid_returns option_type barrier_type w :
  valid_selector option_type barrier_type ->
  returns (black_scholes_barrier_option S K T r sigma H option_type barrier_type) w
          (price_of S K T r sigma H option_type barrier_type).
Proof.
  intros [[-> | ->] [-> | ->]]; unfold price_of; simpl.
  - apply call_in_returns.
  - apply call_out_returns.
  - apply put_in_returns.
  - apply put_out_returns.
Qed.

Lemma invalid_raises option_type barrier_type w :
  ~ valid_selector option_type barrier_type ->
  raises (black_scholes_barrier_option S K T r sigma H option_type barrier_type) w
         InvalidSelector.
Proof.
  intros Hsel.
  destruct Hdef as (? & ? & ? & ? & ? & ? & ? & ? & ? & ? & ?).
  unfold black_scholes_barrier_option.
  do 6 (eapply bind_yields; [solve [py_run; py_cond] | cbv beta]).
  unfold valid_selector in Hsel.
  destruct (String.eqb_spec option_type "call"), (String.eqb_spec option_type "put"),
    (String.eqb_spec barrier_type "out"), (String.eqb_spec barrier_type "in");
    simpl; try tauto; apply raise_raises.
Qed.

Lemma without_x1_y_valid_returns option_type barrier_type w :
  valid_selector option_type barrier_type ->
  returns (black_scholes_barrier_option_without_x1_y S K T r sigma H option_type barrier_type) w
          (price_of S K T r sigma H option_type barrier_type).
Proof.
  destruct Hdef as (? & ? & ? & ? & ? & ? & ? & ? & ? & ? & ?).
  intros [[-> | ->] [-> | ->]]; unfold price_of; simpl;
    (eapply returns_eq;
     [ unfold black_scholes_barrier_option_without_x1_y; py_run; py_cond
     | reflexivity ]).
Qed.

End DefinedInputs.

(** Search for the operation that raises: the operands before it are
    evaluated with [py_run], the fault is one of a zero divisor, a
    non-positive argument of [math.log] or a negative one of [math.sqrt]. *)
Ltac py_ok := solve [ py_run; py_cond ].

Ltac py_fault :=
  lazymatch goal with
  | |- raises (math_log _) _ _ => apply math_log_raises; lra
  | |- raises (math_sqrt _) _ _ => apply math_sqrt_raises; lra
  | |- raises (call _ _) _ _ =>
      first [ eapply call_raises_body; [ py_ok | py_fault ]
            | eapply call_raises_arg; py_fault ]
  | |- raises (py_div _ _) _ _ =>
      first [ eapply div_raises_zero; [ py_ok | py_ok | assumption ]
            | eapply binop_raises_r; [ py_ok | py_fault ]
            | eapply binop_raises_l; py_fault ]
  | |- raises (bind _ _) _ _ =>
      first [ eapply bind_raises_later; [ py_ok | cbv beta; py_fault ]
            | eapply bind_raises; py_fault ]
  | |- raises _ _ _ =>
      first [ eapply binop_raises_r; [ py_ok | py_fault ]
            | eapply binop_raises_l; py_fault ]
  end.

(** When one of the conditions fails, the first one that fails (in
    evaluation order) raises, whatever the selectors are. *)
Lemma defined_or_raises S K T r sigma H option_type barrier_type :
  intermediates_defined S K T sigma H \/
  exists e,
    forall w, raises (black_scholes_barrier_option S K T r sigma H option_type barrier_type) w e.
Proof.
  destruct (Req_dec K 0) as [HK | HK].
  { right. exists ZeroDivisionError.
    intros w. unfold black_scholes_barrier_option. py_fault. }
  destruct (Rlt_dec 0 (S / K)) as [HSK | HSK].
  2:{ right. exists math_domain_error.
      intros w. unfold black_scholes_barrier_option. py_fault. }
  destruct (Rle_dec 0 T) as [HT | HT].
  2:{ right. exists math_domain_error.
      intros w. unfold black_scholes_barrier_option. py_fault. }
  destruct (Req_dec (sigma * sqrt T) 0) as [HsT | HsT].
  { right. exists ZeroDivisionError.
    intros w. unfold black_scholes_barrier_option. py_fault. }
  assert (Hs2 : sigma ^ 2 <> 0).
  { intros E. apply HsT. assert (sigma = 0) by nra. subst sigma. ring. }
  destruct (Req_dec H 0) as [HH | HH].
  { right. exists ZeroDivisionError.
    intros w. unfold black_scholes_barrier_option. py_fault. }
  destruct (Rlt_dec 0 (S / H)) as [HSH | HSH].
  2:{ right. exists math_domain_error.
      intros w. unfold black_scholes_barrier_option. py_fault. }
  left.
  assert (HS : S <> 0).
  { intros ->. unfold Rdiv in HSK. rewrite Rmult_0_l in HSK. lra. }
  assert (HHS : 0 < H / S).
  { replace (H / S) with (/ (S / H)) by (field; split; assumption).
    apply Rinv_0_lt_compat, HSH. }
  assert (HSK' : 0 < S * K).
  { replace (S * K) with (S / K * K ^ 2) by (field; assumption).
    apply Rmult_lt_0_compat; [assumption | nra]. }
  unfold intermediates_defined. repeat split; try assumption.
  - lra.
  - apply Rdiv_lt_0_compat; [nra | assumption].
Qed.

Lemma valid_selector_dec option_type barrier_type :
  {valid_selector option_type barrier_type} + {~ valid_selector option_type barrier_type}.
Proof.
  unfold valid_selector.
  destruct (string_dec option_type "call"), (string_dec option_type "put"),
    (string_dec barrier_type "in"), (string_dec barrier_type "out");
    solve [ left; tauto | right; tauto ].
Qed.

(** Two degenerate calls traced to the operation that raises: the
    division by [sigma * math.sqrt(T)] of line 26. *)
Lemma zero_time_raises r option_type barrier_type w :
  raises (black_scholes_barrier_option 1 1 0 r 1 1 option_type barrier_type) w
         ZeroDivisionError.
Proof.
  assert (0 <= 0) by lra.
  assert (1 * sqrt 0 = 0) by (rewrite sqrt_0; ring).
  unfold black_scholes_barrier_option. py_fault.
Qed.

Lemma zero_sigma_raises r option_type barrier_type w :
  raises (black_scholes_barrier_option 1 1 1 r 0 1 option_type barrier_type) w
         ZeroDivisionError.
Proof.
  assert (0 <= 1) by lra.
  assert (0 * sqrt 1 = 0) by ring.
  unfold black_scholes_barrier_option. py_fault.
Qed.

Lemma straddle_invalid barrier_type : ~ valid_selector "straddle" barrier_type.
Proof. intros [[Hs | Hs] _]; discriminate Hs. Qed.

(** ** Properties of the module *)

(** C3, at an input where it fails: with S = 4, K = 1, T = 1, r = 0.5,
    sigma = 1, H = 4 the knock-in put is priced below zero (about -2.44). *)
Theorem put_in_price_negative w :
  exists v,
    returns (black_scholes_barrier_option 4 1 1 0.5 1 4 "put" "in") w v /\ v < 0.
Proof.
  exists (put_barrier_term 4 1 1 0.5 1 4). split.
  - apply put_in_returns, positive_defined; lra.
  - assert (Hd1 : d1_of 4 1 1 0.5 1 = ln 4 + 1).
    { unfold d1_of. rewrite sqrt_1. replace (4 / 1) with 4 by lra. lra. }
    assert (Hlam : lambda_of 0.5 1 = 1) by (unfold lambda_of; lra).
    assert (Hy1 : y1_of 4 1 0.5 1 4 = 1).
    { unfold y1_of. rewrite Hlam, sqrt_1.
      replace (4 / 4) with 1 by lra. rewrite ln_1. lra. }
    unfold put_barrier_term, d2_of. rewrite Hd1, Hlam, Hy1, sqrt_1.
    replace (- (1) + 1 * 1) with 0 by ring.
    replace (1 - 1 * 1) with 0 by ring.
    replace (ln 4 + 1 - 2 * 1 * 1 * 1) with (ln 4 - 1) by ring.
    replace (ln 4 + 1 - 1 * 1 - 2 * 1 * 1 * 1) with (ln 4 - 2) by ring.
    pose proof ln4_bounds as [Hlo Hup].
    pose proof (Phi_monotone 0 (ln 4 - 1) ltac:(lra)) as Hp.
    pose proof (Phi_monotone (ln 4 - 2) 0 ltac:(lra)) as Hq.
    rewrite Phi_0 in Hp, Hq.
    set (discount := exp (Ropp 0.5 * 1)).
    assert (He0 : 0 < discount) by apply exp_pos.
    assert (He1 : discount < exp 0) by (apply exp_increasing; lra).
    rewrite exp_0 in He1.
    assert (Hprod : discount * Phi (ln 4 - 2) <= discount * (1 / 2))
      by (apply Rmult_le_compat_l; lra).
    lra.
Qed.


(** C8. [x1] (line 29) and [y] (line 31) are computed but not used:
    whenever the function returns a value, the function with these two
    lines deleted returns the same value. *)
Theorem unused_intermediates_removable S K T r sigma H option_type barrier_type w v :
  returns (black_scholes_barrier_option S K T r sigma H option_type barrier_type) w v ->
  returns (black_scholes_barrier_option_without_x1_y S K T r sigma H option_type barrier_type)
          w v.
Proof.
  intros Hv.
  destruct (defined_or_raises S K T r sigma H option_type barrier_type)
    as [Hdef | (e & He)].
  2:{ destruct (returns_not_raises _ _ _ _ Hv (He w)). }
  destruct (valid_selector_dec option_type barrier_type) as [Hsel | Hsel].
  2:{ destruct (returns_not_raises _ _ _ _ Hv
                  (invalid_raises _ _ _ r _ _ Hdef _ _ w Hsel)). }
  rewrite (returns_inj _ _ _ _ Hv (valid_returns _ _ _ r _ _ Hdef _ _ w Hsel)).
  apply without_x1_y_valid_returns; assumption.
Qed.

End Python.

Arguments ret {world A} a _.
Arguments raise {world A} e _.
Arguments bind {world A B} m k _.
Arguments norm_cdf {world} x _.
Arguments black_scholes_barrier_option {world} S K T r sigma H option_type barrier_type _.
Arguments black_scholes_barrier_option_without_x1_y {world}
  S K T r sigma H option_type barrier_type _.
Arguments yields {world A} m w o.
Arguments returns {world A} m w v.
Arguments raises {world A} m w e.

(** ** Instances at concrete inputs

    The interpreter state is taken to be [unit]: the functions never look
    at it. *)

Lemma invalid_selector_zero_time_counterexample :
  ~ valid_selector "straddle" "in" /\
  raises (world := unit) (black_scholes_barrier_option 1 1 0 0 1 1 "straddle" "in") tt
         ZeroDivisionError /\
  ~ raises (world := unit) (black_scholes_barrier_option 1 1 0 0 1 1 "straddle" "in") tt
           InvalidSelector.
Proof.
  pose proof (zero_time_raises unit 0 "straddle" "in" tt) as Hraise.
  split; [apply straddle_invalid |]. split; [exact Hraise |].
  intros Hsel. pose proof (yields_inj _ _ _ _ _ Hraise Hsel). discriminate.
Qed.

Lemma invalid_selector_zero_sigma_counterexample :
  ~ valid_selector "straddle" "out" /\
  raises (world := unit) (black_scholes_barrier_option 1 1 1 0 0 1 "straddle" "out") tt
         ZeroDivisionError /\
  ~ raises (world := unit) (black_scholes_barrier_option 1 1 1 0 0 1 "straddle" "out") tt
           InvalidSelector.
Proof.
  pose proof (zero_sigma_raises unit 0 "straddle" "out" tt) as Hraise.
  split; [apply straddle_invalid |]. split; [exact Hraise |].
  intros Hsel. pose proof (yields_inj _ _ _ _ _ Hraise Hsel). discriminate.
Qed.

Lemma unused_intermediates_removable_witness :
  returns (world := unit) (black_scholes_barrier_option 1 1 1 0 1 1 "call" "in") tt
          (call_barrier_term 1 1 1 0 1 1) /\
  returns (world := unit)
          (black_scholes_barrier_option_without_x1_y 1 1 1 0 1 1 "call" "in") tt
          (call_barrier_term 1 1 1 0 1 1).
Proof.
  assert (Hv : returns (world := unit)
                 (black_scholes_barrier_option 1 1 1 0 1 1 "call" "in") tt
                 (call_barrier_term 1 1 1 0 1 1))
    by (apply call_in_returns, positive_defined; lra).
  split; [exact Hv |].
  apply (unused_intermediates_removable unit 1 1 1 0 1 1 "call" "in" tt _ Hv).
Defined.

(** * The two functions on binary64 floats

    The same transliteration, with Python's floats as IEEE 754 binary64
    numbers (Rocq's primitive floats, which compute).  Every operation
    rounds; [/] raises on a zero divisor; [**] and the [math] functions go
    through CPython's wrappers (float_pow of floatobject.c, math_1 and m_log
    of mathmodule.c), which turn an overflow into OverflowError and an
    argument outside the domain into ValueError.  The C library's pow, log,
    exp and erf are parameters.  The numeric arguments are floats.

    Every statement about which exception a call raises, about whether it
    returns, or about an exact relation between returned floats is made
    here. *)

Module F64.

Import Stdlib.Floats.Floats.
Local Open Scope float_scope.

(** The exception classes the module can raise on floats.  [ValueError]
    carries its message (the module's own, or [math]'s). *)
Inductive exn : Type :=
| ZeroDivisionError
| ValueError (msg : string)
| OverflowError.

Inductive result (A : Type) : Type :=
| Return (a : A)
| Raise (e : exn).
Arguments Return {A} a.
Arguments Raise {A} e.

(** The ValueError of the [math] wrappers.  The wording of its message
    varies between CPython versions; nothing below depends on it, except
    that it is not the message of line 52. *)
Definition math_domain_error : exn := ValueError "math domain error".

(** The exception of the final [else] branch (line 52). *)
Definition InvalidSelector : exn := ValueError selector_message.

Definition bind {A B} (m : result A) (k : A -> result B) : result B :=
  match m with
  | Return a => k a
  | Raise e => Raise e
  end.

(** The C library functions behind [**], [math.log], [math.exp] and
    [math.erf].  They are left open: the theorems hold for every choice of
    them.  The wrappers below test the value a library function returns, as
    CPython does; what CPython reads from errno besides is not modelled (a
    library that reports an error together with a finite non-zero result). *)
Record Libm : Type := {
  libm_pow : float -> float -> float;
  libm_log : float -> float;
  libm_exp : float -> float;
  libm_erf : float -> float
}.

Section Binary64.

Variable libm : Libm.

(** A name or a literal used as an expression. *)
Definition const (x : float) : result float := Return x.
Coercion const : float >-> result.

(** Left operand, then right operand, then the operation. *)
Definition binop (op : float -> float -> result float) (a b : result float) : result float :=
  bind a (fun x => bind b (fun y => op x y)).

(** A call evaluates its argument, then runs the function. *)
Definition call {A B} (f : A -> result B) (arg : result A) : result B := bind arg f.

(** [x / y] on floats: ZeroDivisionError when [y == 0.0] (either zero),
    the IEEE quotient otherwise. *)
Definition truediv (x y : float) : result float :=
  if y =? 0 then Raise ZeroDivisionError else Return (x / y).

(** [x ** 2] on a float (float_pow, the exponent converted to 2.0): NaN,
    the infinities, the zeros and 1.0 are answered without the library;
    otherwise pow is called on the absolute value, and an infinite result
    raises OverflowError.  An underflow to zero or to a subnormal is
    returned silently. *)
Definition float_pow_2 (x : float) : result float :=
  if is_nan x then Return x
  else if is_infinity x then Return (abs x)
  else if x =? 0 then Return 0
  else if abs x =? 1 then Return 1
  else
    let r := libm_pow libm (abs x) 2 in
    if is_infinity r then Raise OverflowError else Return r.

(** [+], [-], [*] and unary [-] on floats never raise. *)
Definition py_add : result float -> result float -> result float :=
  binop (fun x y => Return (x + y)).
Definition py_sub : result float -> result float -> result float :=
  binop (fun x y => Return (x - y)).
Definition py_mul : result float -> result float -> result float :=
  binop (fun x y => Return (x * y)).
Definition py_div : result float -> result float -> result float := binop truediv.
Definition py_neg (a : result float) : result float := bind a (fun x => Return (- x)).
Definition py_pow_2 (a : result float) : result float := bind a float_pow_2.

(** The wrapper of the one-argument [math] functions (math_1): a NaN
    result for an argument that is not NaN is a ValueError; an infinite
    result for a finite argument is an OverflowError where the function can
    overflow and a ValueError where it cannot. *)
Definition math_1 (func : float -> float) (can_overflow : bool) (x : float)
    : result float :=
  let r := func x in
  if is_nan r && negb (is_nan x) then Raise math_domain_error
  else if is_infinity r && is_finite x then
    if can_overflow then Raise OverflowError else Raise math_domain_error
  else Return r.

(** The logarithm [math.log] wraps (m_log): the library's log on positive
    finite arguments, -infinity at zero, NaN below zero and at -infinity;
    NaN and +infinity are returned as they are. *)
Definition m_log (x : float) : float :=
  if is_finite x then
    if 0 <? x then libm_log libm x
    else if x =? 0 then neg_infinity
    else nan
  else if is_nan x then x
  else if 0 <? x then x
  else nan.

Definition math_log : float -> result float := math_1 m_log false.

(** [math.sqrt]: the IEEE square root, which is NaN on negative arguments. *)
Definition math_sqrt : float -> result float := math_1 sqrt false.

Definition math_exp : float -> result float := math_1 (libm_exp libm) true.

(** [math.erf] has no test on the result. *)
Definition math_erf (x : float) : result float := Return (libm_erf libm x).

Declare Scope f64_scope.
Delimit Scope f64_scope with f64.
Notation "a + b" := (py_add a b) : f64_scope.
Notation "a - b" := (py_sub a b) : f64_scope.
Notation "a * b" := (py_mul a b) : f64_scope.
Notation "a / b" := (py_div a b) : f64_scope.
Notation "- a" := (py_neg a) : f64_scope.
#[warnings="-postfix-notation-not-level-1"]
Notation "a '**' '2'" := (py_pow_2 a) (at level 30) : f64_scope.
Notation "x <- m ;; k" := (bind m%f64 (fun x => k%f64))
  (at level 100, m at next level, right associativity) : f64_scope.

(** Lines 3-10. *)
Definition norm_cdf (x : float) : result float :=
  ((1.0 + call math_erf (x / call math_sqrt 2.0)) / 2.0)%f64.

(** Lines 12-52. *)
Definition black_scholes_barrier_option
    (S K T r sigma H : float) (option_type barrier_type : string) : result float :=
  (d1 <- (call math_log (S / K) + (r + 0.5 * sigma ** 2) * T) / (sigma * call math_sqrt T) ;;
   d2 <- d1 - sigma * call math_sqrt T ;;
   lambda_ <- (r + 0.5 * sigma ** 2) / sigma ** 2 ;;
   x1 <- call math_log (S / H) / (sigma * call math_sqrt T) + lambda_ * sigma * call math_sqrt T ;;
   y1 <- call math_log (H / S) / (sigma * call math_sqrt T) + lambda_ * sigma * call math_sqrt T ;;
   y <- (call math_log (H ** 2 / (S * K)) + (r + 0.5 * sigma ** 2) * T) / (sigma * call math_sqrt T) ;;
   if (option_type =? "call")%string && (barrier_type =? "out")%string then
     call_price <-
       (S * call norm_cdf d1 - K * call math_exp (- r * T) * call norm_cdf d2) -
       (H * call norm_cdf (y1 - sigma * call math_sqrt T) - H * call norm_cdf (- y1 + sigma * call math_sqrt T) -
        S * call norm_cdf (- d1 + 2 * lambda_ * sigma * call math_sqrt T) + K * call math_exp (- r * T) * call norm_cdf (- d2 + 2 * lambda_ * sigma * call math_sqrt T)) ;;
     Return call_price
   else if (option_type =? "call")%string && (barrier_type =? "in")%string then
     call_price <-
       H * call norm_cdf (y1 - sigma * call math_sqrt T) - H * call norm_cdf (- y1 + sigma * call math_sqrt T) -
       S * call norm_cdf (- d1 + 2 * lambda_ * sigma * call math_sqrt T) + K * call math_exp (- r * T) * call norm_cdf (- d2 + 2 * lambda_ * sigma * call math_sqrt T) ;;
     Return call_price
   else if (option_type =? "put")%string && (barrier_type =? "out")%string then
     put_price <-
       (K * call math_exp (- r * T) * call norm_cdf (- d2) - S * call norm_cdf (- d1)) -
       (H * call norm_cdf (- y1 + sigma * call math_sqrt T) - H * call norm_cdf (y1 - sigma * call math_sqrt T) -
        S * call norm_cdf (d1 - 2 * lambda_ * sigma * call math_sqrt T) + K * call math_exp (- r * T) * call norm_cdf (d2 - 2 * lambda_ * sigma * call math_sqrt T)) ;;
     Return put_price
   else if (option_type =? "put")%string && (barrier_type =? "in")%string then
     put_price <-
       H * call norm_cdf (- y1 + sigma * call math_sqrt T) - H * call norm_cdf (y1 - sigma * call math_sqrt T) -
       S * call norm_cdf (d1 - 2 * lambda_ * sigma * call math_sqrt T) + K * call math_exp (- r * T) * call norm_cdf (d2 - 2 * lambda_ * sigma * call math_sqrt T) ;;
     Return put_price
   else
     Raise InvalidSelector)%f64.


(** The function with lines 29 and 31 (the bindings of [x1] and [y])
    deleted, and nothing else changed. *)
Definition black_scholes_barrier_option_without_x1_y
    (S K T r sigma H : float) (option_type barrier_type : string) : result float :=
  (d1 <- (call math_log (S / K) + (r + 0.5 * sigma ** 2) * T) / (sigma * call math_sqrt T) ;;
   d2 <- d1 - sigma * call math_sqrt T ;;
   lambda_ <- (r + 0.5 * sigma ** 2) / sigma ** 2 ;;
   y1 <- call math_log (H / S) / (sigma * call math_sqrt T) + lambda_ * sigma * call math_sqrt T ;;
   if (option_type =? "call")%string && (barrier_type =? "out")%string then
     call_price <-
       (S * call norm_cdf d1 - K * call math_exp (- r * T) * call norm_cdf d2) -
       (H * call norm_cdf (y1 - sigma * call math_sqrt T) - H * call norm_cdf (- y1 + sigma * call math_sqrt T) -
        S * call norm_cdf (- d1 + 2 * lambda_ * sigma * call math_sqrt T) + K * call math_exp (- r * T) * call norm_cdf (- d2 + 2 * lambda_ * sigma * call math_sqrt T)) ;;
     Return call_price
   else if (option_type =? "call")%string && (barrier_type =? "in")%string then
     call_price <-
       H * call norm_cdf (y1 - sigma * call math_sqrt T) - H * call norm_cdf (- y1 + sigma * call math_sqrt T) -
       S * call norm_cdf (- d1 + 2 * lambda_ * sigma * call math_sqrt T) + K * call math_exp (- r * T) * call norm_cdf (- d2 + 2 * lambda_ * sigma * call math_sqrt T) ;;
     Return call_price
   else if (option_type =? "put")%string && (barrier_type =? "out")%string then
     put_price <-
       (K * call math_exp (- r * T) * call norm_cdf (- d2) - S * call norm_cdf (- d1)) -
       (H * call norm_cdf (- y1 + sigma * call math_sqrt T) - H * call norm_cdf (y1 - sigma * call math_sqrt T) -
        S * call norm_cdf (d1 - 2 * lambda_ * sigma * call math_sqrt T) + K * call math_exp (- r * T) * call norm_cdf (d2 - 2 * lambda_ * sigma * call math_sqrt T)) ;;
     Return put_price
   else if (option_type =? "put")%string && (barrier_type =? "in")%string then
     put_price <-
       H * call norm_cdf (- y1 + sigma * call math_sqrt T) - H * call norm_cdf (y1 - sigma * call math_sqrt T) -
       S * call norm_cdf (d1 - 2 * lambda_ * sigma * call math_sqrt T) + K * call math_exp (- r * T) * call norm_cdf (d2 - 2 * lambda_ * sigma * call math_sqrt T) ;;
     Return put_price
   else
     Raise InvalidSelector)%f64.

(** ** The outcome of each primitive as a test on its argument *)

(** Whether a [math] function that cannot overflow returns on an
    argument. *)
Definition domain_ok (func : float -> float) (x : float) : bool :=
  negb (is_nan (func x) && negb (is_nan x)) &&
  negb (is_infinity (func x) && is_finite x).

Definition log_ok : float -> bool := domain_ok m_log.

Definition sqrt_ok : float -> bool := domain_ok sqrt.

(** Whether [x ** 2] returns, and what it returns. *)
Definition pow_2_ok (x : float) : bool :=
  is_nan x || is_infinity x || (x =? 0) || (abs x =? 1) ||
  negb (is_infinity (libm_pow libm (abs x) 2)).

Definition pow_2_val (x : float) : float :=
  if is_nan x then x
  else if is_infinity x then abs x
  else if x =? 0 then 0
  else if abs x =? 1 then 1
  else libm_pow libm (abs x) 2.

(** The exception of [math.exp] on an argument, if it raises. *)
Definition exp_fault (x : float) : option exn :=
  if is_nan (libm_exp libm x) && negb (is_nan x) then Some math_domain_error
  else if is_infinity (libm_exp libm x) && is_finite x then Some OverflowError
  else None.

Lemma math_1_domain_eq func x :
  math_1 func false x = if domain_ok func x then Return (func x) else Raise math_domain_error.
Proof.
  unfold math_1, domain_ok. cbv zeta.
  destruct (is_nan (func x) && negb (is_nan x)); [reflexivity |].
  destruct (is_infinity (func x) && is_finite x); reflexivity.
Qed.

Lemma math_log_eq x :
  math_log x = if log_ok x then Return (m_log x) else Raise math_domain_error.
Proof. apply math_1_domain_eq. Qed.

Lemma math_sqrt_eq x :
  math_sqrt x = if sqrt_ok x then Return (sqrt x) else Raise math_domain_error.
Proof. apply math_1_domain_eq. Qed.

Lemma float_pow_2_eq x :
  float_pow_2 x = if pow_2_ok x then Return (pow_2_val x) else Raise OverflowError.
Proof.
  unfold float_pow_2, pow_2_ok, pow_2_val. cbv zeta.
  destruct (is_nan x); [reflexivity |].
  destruct (is_infinity x); [reflexivity |].
  destruct (x =? 0); [reflexivity |].
  destruct (abs x =? 1); [reflexivity |].
  destruct (is_infinity (libm_pow libm (abs x) 2)); reflexivity.
Qed.

Lemma math_exp_eq x :
  math_exp x =
  match exp_fault x with
  | Some e => Raise e
  | None => Return (libm_exp libm x)
  end.
Proof.
  unfold math_exp, math_1, exp_fault. cbv zeta.
  destruct (is_nan (libm_exp libm x) && negb (is_nan x)); [reflexivity |].
  destruct (is_infinity (libm_exp libm x) && is_finite x); reflexivity.
Qed.

(** The value [norm_cdf] returns. *)
Definition phi (x : float) : float := (1.0 + libm_erf libm (x / sqrt 2.0)) / 2.0.

Lemma norm_cdf_eq x : norm_cdf x = Return (phi x).
Proof. reflexivity. Qed.


(** ** Lines 26-31 *)

(** Lines 26-31 alone, giving the four intermediates the branches read. *)
Definition intermediates (S K T r sigma H : float) : result (float * float * float * float) :=
  (d1 <- (call math_log (S / K) + (r + 0.5 * sigma ** 2) * T) / (sigma * call math_sqrt T) ;;
   d2 <- d1 - sigma * call math_sqrt T ;;
   lambda_ <- (r + 0.5 * sigma ** 2) / sigma ** 2 ;;
   x1 <- call math_log (S / H) / (sigma * call math_sqrt T) + lambda_ * sigma * call math_sqrt T ;;
   y1 <- call math_log (H / S) / (sigma * call math_sqrt T) + lambda_ * sigma * call math_sqrt T ;;
   y <- (call math_log (H ** 2 / (S * K)) + (r + 0.5 * sigma ** 2) * T) / (sigma * call math_sqrt T) ;;
   Return (d1, d2, lambda_, y1))%f64.

(** The first operation of lines 26-31 that raises, in evaluation order,
    with its exception; [None] when all six lines return. *)
Definition first_fault (S K T sigma H : float) : option exn :=
  if K =? 0 then Some ZeroDivisionError                          (* S / K, line 26 *)
  else if negb (log_ok (S / K)) then Some math_domain_error      (* math.log(S / K) *)
  else if negb (pow_2_ok sigma) then Some OverflowError          (* sigma**2 *)
  else if negb (sqrt_ok T) then Some math_domain_error           (* math.sqrt(T) *)
  else if sigma * sqrt T =? 0 then Some ZeroDivisionError        (* / (sigma * math.sqrt(T)) *)
  else if pow_2_val sigma =? 0 then Some ZeroDivisionError       (* / sigma**2, line 28 *)
  else if H =? 0 then Some ZeroDivisionError                     (* S / H, line 29 *)
  else if negb (log_ok (S / H)) then Some math_domain_error      (* math.log(S / H) *)
  else if S =? 0 then Some ZeroDivisionError                     (* H / S, line 30 *)
  else if negb (log_ok (H / S)) then Some math_domain_error      (* math.log(H / S) *)
  else if negb (pow_2_ok H) then Some OverflowError              (* H**2, line 31 *)
  else if S * K =? 0 then Some ZeroDivisionError                 (* / (S * K) *)
  else if negb (log_ok (pow_2_val H / (S * K))) then Some math_domain_error
  else None.

Definition d1_val (S K T r sigma : float) : float :=
  (m_log (S / K) + (r + 0.5 * pow_2_val sigma) * T) / (sigma * sqrt T).

Definition d2_val (S K T r sigma : float) : float :=
  d1_val S K T r sigma - sigma * sqrt T.

Definition lambda_val (r sigma : float) : float :=
  (r + 0.5 * pow_2_val sigma) / pow_2_val sigma.

Definition y1_val (S T r sigma H : float) : float :=
  m_log (H / S) / (sigma * sqrt T) + lambda_val r sigma * sigma * sqrt T.

(** One step of evaluation: unfold the operators, put the [math] calls in
    test form. *)
Ltac exec :=
  cbv beta iota delta [bind binop call const py_add py_sub py_mul py_div py_neg
                       py_pow_2 truediv negb];
  rewrite ?math_log_eq, ?float_pow_2_eq, ?math_sqrt_eq.

Ltac test b := destruct b; exec; try reflexivity.

Lemma intermediates_eq S K T r sigma H :
  intermediates S K T r sigma H =
  match first_fault S K T sigma H with
  | Some e => Raise e
  | None => Return (d1_val S K T r sigma, d2_val S K T r sigma,
                    lambda_val r sigma, y1_val S T r sigma H)
  end.
Proof.
  unfold intermediates, first_fault. exec.
  test (K =? 0). test (log_ok (S / K)). test (pow_2_ok sigma).
  test (sqrt_ok T). test (sigma * sqrt T =? 0). test (pow_2_val sigma =? 0).
  test (H =? 0). test (log_ok (S / H)). test (S =? 0). test (log_ok (H / S)).
  test (pow_2_ok H). test (S * K =? 0). test (log_ok (pow_2_val H / (S * K))).
Qed.


(** ** Lines 33-52 *)

(** The dispatch of lines 33-52 on given intermediates. *)
Definition branch (S K T r sigma H : float) (option_type barrier_type : string)
    (q : float * float * float * float) : result float :=
  let '(d1, d2, lambda_, y1) := q in
  (if (option_type =? "call")%string && (barrier_type =? "out")%string then
     call_price <-
       (S * call norm_cdf d1 - K * call math_exp (- r * T) * call norm_cdf d2) -
       (H * call norm_cdf (y1 - sigma * call math_sqrt T) - H * call norm_cdf (- y1 + sigma * call math_sqrt T) -
        S * call norm_cdf (- d1 + 2 * lambda_ * sigma * call math_sqrt T) + K * call math_exp (- r * T) * call norm_cdf (- d2 + 2 * lambda_ * sigma * call math_sqrt T)) ;;
     Return call_price
   else if (option_type =? "call")%string && (barrier_type =? "in")%string then
     call_price <-
       H * call norm_cdf (y1 - sigma * call math_sqrt T) - H * call norm_cdf (- y1 + sigma * call math_sqrt T) -
       S * call norm_cdf (- d1 + 2 * lambda_ * sigma * call math_sqrt T) + K * call math_exp (- r * T) * call norm_cdf (- d2 + 2 * lambda_ * sigma * call math_sqrt T) ;;
     Return call_price
   else if (option_type =? "put")%string && (barrier_type =? "out")%string then
     put_price <-
       (K * call math_exp (- r * T) * call norm_cdf (- d2) - S * call norm_cdf (- d1)) -
       (H * call norm_cdf (- y1 + sigma * call math_sqrt T) - H * call norm_cdf (y1 - sigma * call math_sqrt T) -
        S * call norm_cdf (d1 - 2 * lambda_ * sigma * call math_sqrt T) + K * call math_exp (- r * T) * call norm_cdf (d2 - 2 * lambda_ * sigma * call math_sqrt T)) ;;
     Return put_price
   else if (option_type =? "put")%string && (barrier_type =? "in")%string then
     put_price <-
       H * call norm_cdf (- y1 + sigma * call math_sqrt T) - H * call norm_cdf (y1 - sigma * call math_sqrt T) -
       S * call norm_cdf (d1 - 2 * lambda_ * sigma * call math_sqrt T) + K * call math_exp (- r * T) * call norm_cdf (d2 - 2 * lambda_ * sigma * call math_sqrt T) ;;
     Return put_price
   else
     Raise InvalidSelector)%f64.

Lemma black_scholes_barrier_option_split S K T r sigma H option_type barrier_type :
  black_scholes_barrier_option S K T r sigma H option_type barrier_type =
  bind (intermediates S K T r sigma H) (branch S K T r sigma H option_type barrier_type).
Proof.
  unfold black_scholes_barrier_option, intermediates, branch.
  repeat (match goal with |- bind ?m _ = _ => destruct m end;
          [cbn [bind] | reflexivity]).
  reflexivity.
Qed.

(** The float expressions the branches evaluate, [ex] being the value of
    [math.exp(-r * T)]. *)
Definition vanilla_call_val (S K T r sigma ex : float) : float :=
  S * phi (d1_val S K T r sigma) - K * ex * phi (d2_val S K T r sigma).

Definition vanilla_put_val (S K T r sigma ex : float) : float :=
  K * ex * phi (- d2_val S K T r sigma) - S * phi (- d1_val S K T r sigma).

Definition call_term_val (S K T r sigma H ex : float) : float :=
  let d1 := d1_val S K T r sigma in
  let d2 := d2_val S K T r sigma in
  let lambda_ := lambda_val r sigma in
  let y1 := y1_val S T r sigma H in
  H * phi (y1 - sigma * sqrt T) - H * phi (- y1 + sigma * sqrt T) -
  S * phi (- d1 + 2 * lambda_ * sigma * sqrt T) +
  K * ex * phi (- d2 + 2 * lambda_ * sigma * sqrt T).

Definition put_term_val (S K T r sigma H ex : float) : float :=
  let d1 := d1_val S K T r sigma in
  let d2 := d2_val S K T r sigma in
  let lambda_ := lambda_val r sigma in
  let y1 := y1_val S T r sigma H in
  H * phi (- y1 + sigma * sqrt T) - H * phi (y1 - sigma * sqrt T) -
  S * phi (d1 - 2 * lambda_ * sigma * sqrt T) +
  K * ex * phi (d2 - 2 * lambda_ * sigma * sqrt T).

(** The price a valid selector pair selects, and [None] for the others. *)
Definition price_val (S K T r sigma H ex : float) (option_type barrier_type : string)
    : option float :=
  if (option_type =? "call")%string && (barrier_type =? "out")%string then
    Some (vanilla_call_val S K T r sigma ex - call_term_val S K T r sigma H ex)
  else if (option_type =? "call")%string && (barrier_type =? "in")%string then
    Some (call_term_val S K T r sigma H ex)
  else if (option_type =? "put")%string && (barrier_type =? "out")%string then
    Some (vanilla_put_val S K T r sigma ex - put_term_val S K T r sigma H ex)
  else if (option_type =? "put")%string && (barrier_type =? "in")%string then
    Some (put_term_val S K T r sigma H ex)
  else None.

(** The whole function as a table: the first fault of lines 26-31 if there
    is one; otherwise InvalidSelector for an invalid pair; otherwise the
    exception of [math.exp(-r * T)] if it raises; otherwise the price. *)
Definition outcome (S K T r sigma H : float) (option_type barrier_type : string)
    : result float :=
  match first_fault S K T sigma H with
  | Some e => Raise e
  | None =>
      match price_val S K T r sigma H (libm_exp libm (- r * T)) option_type barrier_type with
      | None => Raise InvalidSelector
      | Some v =>
          match exp_fault (- r * T) with
          | Some e => Raise e
          | None => Return v
          end
      end
  end.

Lemma first_fault_None_sqrt S K T sigma H :
  first_fault S K T sigma H = None -> sqrt_ok T = true.
Proof.
  unfold first_fault.
  destruct (K =? 0); [discriminate |].
  destruct (log_ok (S / K)); [| discriminate].
  destruct (pow_2_ok sigma); [| discriminate].
  destruct (sqrt_ok T); [reflexivity | discriminate].
Qed.

Lemma black_scholes_barrier_option_eq S K T r sigma H option_type barrier_type :
  black_scholes_barrier_option S K T r sigma H option_type barrier_type =
  outcome S K T r sigma H option_type barrier_type.
Proof.
  rewrite black_scholes_barrier_option_split, intermediates_eq.
  unfold outcome.
  destruct (first_fault S K T sigma H) eqn:Hfault; [reflexivity |].
  pose proof (first_fault_None_sqrt _ _ _ _ _ Hfault) as Hsqrt.
  unfold branch, price_val, bind at 1.
  destruct (option_type =? "call")%string, (option_type =? "put")%string,
    (barrier_type =? "out")%string, (barrier_type =? "in")%string;
    cbv beta iota delta [andb];
    try reflexivity;
    repeat (exec; rewrite ?norm_cdf_eq, ?math_exp_eq, ?Hsqrt);
    destruct (exp_fault (- r * T)); exec; reflexivity.
Qed.


(** ** Consequences of the table *)

(** The exceptions of the interpreter's float arithmetic and of [math]. *)
Definition ArithmeticFault (e : exn) : Prop :=
  e = ZeroDivisionError \/ e = math_domain_error \/ e = OverflowError.

Lemma ArithmeticFault_not_selector e : ArithmeticFault e -> e <> InvalidSelector.
Proof. intros [-> | [-> | ->]]; discriminate. Qed.

Lemma first_fault_arithmetic S K T sigma H e :
  first_fault S K T sigma H = Some e -> ArithmeticFault e.
Proof.
  unfold first_fault, ArithmeticFault.
  repeat match goal with
         | |- (if ?b then _ else _) = _ -> _ => destruct b; cbv beta iota delta [negb]
         end;
    intros E; inversion E; tauto.
Qed.

Lemma exp_fault_arithmetic x e : exp_fault x = Some e -> ArithmeticFault e.
Proof.
  unfold exp_fault, ArithmeticFault.
  destruct (is_nan (libm_exp libm x) && negb (is_nan x)); [intros E; inversion E; tauto |].
  destruct (is_infinity (libm_exp libm x) && is_finite x); intros E; inversion E; tauto.
Qed.

Lemma price_val_valid S K T r sigma H ex option_type barrier_type :
  valid_selector option_type barrier_type ->
  exists v, price_val S K T r sigma H ex option_type barrier_type = Some v.
Proof.
  intros [[-> | ->] [-> | ->]]; eexists; reflexivity.
Qed.

Lemma price_val_invalid S K T r sigma H ex option_type barrier_type :
  ~ valid_selector option_type barrier_type ->
  price_val S K T r sigma H ex option_type barrier_type = None.
Proof.
  intros Hsel. unfold price_val, valid_selector in *.
  destruct (String.eqb_spec option_type "call"), (String.eqb_spec option_type "put"),
    (String.eqb_spec barrier_type "out"), (String.eqb_spec barrier_type "in");
    simpl; try reflexivity; tauto.
Qed.

Lemma intermediates_returns_iff S K T r sigma H :
  (exists q, intermediates S K T r sigma H = Return q) <->
  first_fault S K T sigma H = None.
Proof.
  rewrite intermediates_eq.
  destruct (first_fault S K T sigma H); split.
  - intros [q Hq]. discriminate.
  - discriminate.
  - reflexivity.
  - intros _. eexists. reflexivity.
Qed.

(** The vanilla Black-Scholes call and put of the claims, S N(d1) -
    K exp(-rT) N(d2) and K exp(-rT) N(-d2) - S N(-d1), computed as lines 26,
    27, 34 and 43 compute them. *)
Definition vanilla_call (S K T r sigma : float) : result float :=
  (d1 <- (call math_log (S / K) + (r + 0.5 * sigma ** 2) * T) / (sigma * call math_sqrt T) ;;
   d2 <- d1 - sigma * call math_sqrt T ;;
   S * call norm_cdf d1 - K * call math_exp (- r * T) * call norm_cdf d2)%f64.

Definition vanilla_put (S K T r sigma : float) : result float :=
  (d1 <- (call math_log (S / K) + (r + 0.5 * sigma ** 2) * T) / (sigma * call math_sqrt T) ;;
   d2 <- d1 - sigma * call math_sqrt T ;;
   K * call math_exp (- r * T) * call norm_cdf (- d2) - S * call norm_cdf (- d1))%f64.

Ltac pass b := destruct b; exec; try discriminate.

Lemma vanilla_eq S K T r sigma H :
  first_fault S K T sigma H = None ->
  vanilla_call S K T r sigma =
    match exp_fault (- r * T) with
    | Some e => Raise e
    | None => Return (vanilla_call_val S K T r sigma (libm_exp libm (- r * T)))
    end /\
  vanilla_put S K T r sigma =
    match exp_fault (- r * T) with
    | Some e => Raise e
    | None => Return (vanilla_put_val S K T r sigma (libm_exp libm (- r * T)))
    end.
Proof.
  unfold first_fault, vanilla_call, vanilla_put. exec.
  pass (K =? 0). pass (log_ok (S / K)). pass (pow_2_ok sigma).
  pass (sqrt_ok T). pass (sigma * sqrt T =? 0).
  intros _.
  repeat (exec; rewrite ?norm_cdf_eq, ?math_exp_eq).
  destruct (exp_fault (- r * T)); exec; split; reflexivity.
Qed.

(** Lines 26, 27, 28 and 30 alone. *)
Definition intermediates_without_x1_y (S K T r sigma H : float)
    : result (float * float * float * float) :=
  (d1 <- (call math_log (S / K) + (r + 0.5 * sigma ** 2) * T) / (sigma * call math_sqrt T) ;;
   d2 <- d1 - sigma * call math_sqrt T ;;
   lambda_ <- (r + 0.5 * sigma ** 2) / sigma ** 2 ;;
   y1 <- call math_log (H / S) / (sigma * call math_sqrt T) + lambda_ * sigma * call math_sqrt T ;;
   Return (d1, d2, lambda_, y1))%f64.

Lemma without_x1_y_split S K T r sigma H option_type barrier_type :
  black_scholes_barrier_option_without_x1_y S K T r sigma H option_type barrier_type =
  bind (intermediates_without_x1_y S K T r sigma H)
       (branch S K T r sigma H option_type barrier_type).
Proof.
  unfold black_scholes_barrier_option_without_x1_y, intermediates_without_x1_y, branch.
  repeat (match goal with |- bind ?m _ = _ => destruct m end;
          [cbn [bind] | reflexivity]).
  reflexivity.
Qed.

Lemma intermediates_without_x1_y_eq S K T r sigma H :
  first_fault S K T sigma H = None ->
  intermediates_without_x1_y S K T r sigma H = intermediates S K T r sigma H.
Proof.
  rewrite intermediates_eq.
  unfold first_fault, intermediates_without_x1_y. exec.
  pass (K =? 0). pass (log_ok (S / K)). pass (pow_2_ok sigma).
  pass (sqrt_ok T). pass (sigma * sqrt T =? 0). pass (pow_2_val sigma =? 0).
  pass (H =? 0). pass (log_ok (S / H)). pass (S =? 0). pass (log_ok (H / S)).
  pass (pow_2_ok H). pass (S * K =? 0). pass (log_ok (pow_2_val H / (S * K))).
  reflexivity.
Qed.


(** ** IEEE facts used for zero inputs *)

Lemma eqb_zero_inv x : (x =? 0) = true -> exists s, Prim2SF x = S754_zero s.
Proof.
  rewrite eqb_spec. change (Prim2SF 0) with (S754_zero false).
  destruct (Prim2SF x) as [s | s | | s m e]; try discriminate.
  - intros _. exists s. reflexivity.
  - destruct s; discriminate.
  - destruct s; discriminate.
Qed.

Lemma eqb_zero_intro x s : Prim2SF x = S754_zero s -> (x =? 0) = true.
Proof.
  intros Hx. rewrite eqb_spec, Hx. reflexivity.
Qed.

Lemma pow_2_of_zero x : (x =? 0) = true -> (pow_2_val x =? 0) = true.
Proof.
  intros Hx. destruct (eqb_zero_inv x Hx) as [s Hs].
  unfold pow_2_val, is_nan, is_infinity.
  rewrite Hx, !eqb_spec, abs_spec, Hs. reflexivity.
Qed.

Lemma is_finite_cases x :
  is_finite x = true ->
  (exists s, Prim2SF x = S754_zero s) \/ (exists s m e, Prim2SF x = S754_finite s m e).
Proof.
  unfold is_finite, is_nan, is_infinity.
  rewrite !eqb_spec, abs_spec. change (Prim2SF infinity) with (S754_infinity false).
  destruct (Prim2SF x) as [s | s | | s m e].
  - intros _. left. exists s. reflexivity.
  - destruct s; discriminate.
  - discriminate.
  - intros _. right. exists s, m, e. reflexivity.
Qed.

Lemma finite_times_sqrt_zero x t :
  is_finite x = true -> (t =? 0) = true -> (x * sqrt t =? 0) = true.
Proof.
  intros Hx Ht. destruct (eqb_zero_inv t Ht) as [st Hst].
  assert (Hsq : Prim2SF (sqrt t) = S754_zero st) by (rewrite sqrt_spec, Hst; reflexivity).
  destruct (is_finite_cases x Hx) as [[s Hs] | (s & m & e & Hs)].
  - apply eqb_zero_intro with (xorb s st). rewrite mul_spec, Hs, Hsq. reflexivity.
  - apply eqb_zero_intro with (xorb s st). rewrite mul_spec, Hs, Hsq. reflexivity.
Qed.

(** An input the interpreter's [==] finds equal to zero. *)
Definition degenerate (S K T sigma H : float) : Prop :=
  (sigma =? 0) = true \/ (T =? 0) = true \/ (S =? 0) = true \/
  (K =? 0) = true \/ (H =? 0) = true.

Lemma degenerate_first_fault S K T sigma H :
  is_finite sigma = true -> degenerate S K T sigma H ->
  exists e, first_fault S K T sigma H = Some e.
Proof.
  intros Hfin Hdeg. unfold first_fault.
  destruct (K =? 0) eqn:HK; [eexists; reflexivity |].
  destruct (log_ok (S / K)); [| eexists; reflexivity].
  destruct (pow_2_ok sigma); [| eexists; reflexivity].
  destruct (sqrt_ok T); [| eexists; reflexivity].
  destruct (sigma * sqrt T =? 0) eqn:HsT; [eexists; reflexivity |].
  destruct (pow_2_val sigma =? 0) eqn:Hss; [eexists; reflexivity |].
  destruct (H =? 0) eqn:HH; [eexists; reflexivity |].
  destruct (log_ok (S / H)); [| eexists; reflexivity].
  destruct (S =? 0) eqn:HS; [eexists; reflexivity |].
  exfalso.
  destruct Hdeg as [Hz | [Hz | [Hz | [Hz | Hz]]]]; try congruence.
  - rewrite (pow_2_of_zero _ Hz) in Hss. discriminate.
  - rewrite (finite_times_sqrt_zero _ _ Hfin Hz) in HsT. discriminate.
Qed.

Lemma degenerate_faults S K T r sigma H option_type barrier_type :
  is_finite sigma = true -> degenerate S K T sigma H ->
  exists e, ArithmeticFault e /\
    black_scholes_barrier_option S K T r sigma H option_type barrier_type = Raise e.
Proof.
  intros Hfin Hdeg.
  destruct (degenerate_first_fault S K T sigma H Hfin Hdeg) as [e He].
  exists e. split; [exact (first_fault_arithmetic _ _ _ _ _ _ He) |].
  rewrite black_scholes_barrier_option_eq. unfold outcome. rewrite He. reflexivity.
Qed.





(** ** Properties of the module on binary64 floats *)

(** C1, as the code has it.  In floating point the knock-out call is: the
    knock-in call's price C (or its exception), then the vanilla price V
    computed as lines 26, 27 and 34 compute it (or its exception), then the
    float difference V - C; likewise for the puts with line 43.  So a
    knock-out price is the vanilla price minus the knock-in price exactly,
    and the sum of the two prices is the vanilla price up to the rounding of
    one subtraction and one addition, when the calls return. *)
Theorem in_out_parity_binary64 S K T r sigma H :
  black_scholes_barrier_option S K T r sigma H "call" "out" =
    bind (black_scholes_barrier_option S K T r sigma H "call" "in")
         (fun c => bind (vanilla_call S K T r sigma) (fun v => Return (v - c))) /\
  black_scholes_barrier_option S K T r sigma H "put" "out" =
    bind (black_scholes_barrier_option S K T r sigma H "put" "in")
         (fun c => bind (vanilla_put S K T r sigma) (fun v => Return (v - c))).
Proof.
  rewrite !black_scholes_barrier_option_eq. unfold outcome.
  destruct (first_fault S K T sigma H) eqn:Hfault; [split; reflexivity |].
  destruct (vanilla_eq S K T r sigma H Hfault) as [-> ->].
  cbn [price_val String.eqb Ascii.eqb Bool.eqb andb].
  destruct (exp_fault (- r * T)); split; reflexivity.
Qed.

(** C2, as the code has it.  With a selector pair outside
    {call,put} x {in,out} the error of line 52 is raised only once lines
    26-31 have returned; when they raise, their exception (ZeroDivisionError,
    the ValueError of math.log or math.sqrt, or OverflowError) is raised
    instead, as it is for a finite sigma when sigma, T, S, K or H is zero. *)
Theorem invalid_selector_follows_intermediates
    S K T r sigma H option_type barrier_type :
  ~ valid_selector option_type barrier_type ->
  black_scholes_barrier_option S K T r sigma H option_type barrier_type =
    bind (intermediates S K T r sigma H) (fun _ => Raise InvalidSelector) /\
  (forall e, intermediates S K T r sigma H = Raise e ->
             ArithmeticFault e /\ e <> InvalidSelector) /\
  (is_finite sigma = true -> degenerate S K T sigma H ->
   exists e, ArithmeticFault e /\ e <> InvalidSelector /\
     black_scholes_barrier_option S K T r sigma H option_type barrier_type = Raise e).
Proof.
  intros Hsel. split; [| split].
  - rewrite black_scholes_barrier_option_eq, intermediates_eq. unfold outcome.
    destruct (first_fault S K T sigma H); [reflexivity |].
    rewrite price_val_invalid by exact Hsel. reflexivity.
  - intros e. rewrite intermediates_eq.
    destruct (first_fault S K T sigma H) eqn:Hfault; [| discriminate].
    intros E. inversion E; subst.
    pose proof (first_fault_arithmetic _ _ _ _ _ _ Hfault) as Hfa.
    split; [exact Hfa | exact (ArithmeticFault_not_selector _ Hfa)].
  - intros Hfin Hdeg.
    destruct (degenerate_faults S K T r sigma H option_type barrier_type Hfin Hdeg)
      as (e & Hfa & He).
    exists e. repeat split; [exact Hfa | exact (ArithmeticFault_not_selector _ Hfa) | exact He].
Qed.

(** C4, as the code has it.  With a valid selector pair and a finite
    sigma, a zero sigma, T, S, K or H makes the call raise instead of
    returning a number; the exception is ZeroDivisionError, the ValueError
    of math.log or math.sqrt, or OverflowError when sigma**2 or H**2
    overflows before the zero is reached. *)
Theorem degenerate_input_raises_binary64
    S K T r sigma H option_type barrier_type :
  valid_selector option_type barrier_type ->
  is_finite sigma = true ->
  degenerate S K T sigma H ->
  exists e, ArithmeticFault e /\
    black_scholes_barrier_option S K T r sigma H option_type barrier_type = Raise e /\
    forall v,
      black_scholes_barrier_option S K T r sigma H option_type barrier_type <> Return v.
Proof.
  intros _ Hfin Hdeg.
  destruct (degenerate_faults S K T r sigma H option_type barrier_type Hfin Hdeg)
    as (e & Hfa & He).
  exists e. repeat split; [exact Hfa | exact He |].
  intros v Hv. rewrite He in Hv. discriminate.
Qed.

(** C5, as the code has it.  InvalidSelector is raised exactly when lines
    26-31 return and the pair is not one of the four valid ones; so for
    numeric inputs on which some call returns a price, 'straddle' raises it
    with every barrier_type.  The message names the literals 'call', 'put',
    'in', 'out' and both selector fields. *)
Theorem invalid_selector_exactly_when S K T r sigma H option_type barrier_type :
  (black_scholes_barrier_option S K T r sigma H option_type barrier_type =
     Raise InvalidSelector <->
   (exists q, intermediates S K T r sigma H = Return q) /\
   ~ valid_selector option_type barrier_type) /\
  ((exists option_type' barrier_type' v,
       black_scholes_barrier_option S K T r sigma H option_type' barrier_type' = Return v) ->
   black_scholes_barrier_option S K T r sigma H "straddle" barrier_type =
     Raise InvalidSelector) /\
  InvalidSelector = ValueError selector_message /\
  mentions "'call'" selector_message = true /\
  mentions "'put'" selector_message = true /\
  mentions "'in'" selector_message = true /\
  mentions "'out'" selector_message = true /\
  mentions "option_type" selector_message = true /\
  mentions "barrier_type" selector_message = true.
Proof.
  split; [| split; [| repeat split; reflexivity]].
  - rewrite intermediates_returns_iff, black_scholes_barrier_option_eq. unfold outcome.
    destruct (first_fault S K T sigma H) eqn:Hfault.
    + split.
      * intros E. inversion E; subst.
        destruct (ArithmeticFault_not_selector _
                    (first_fault_arithmetic _ _ _ _ _ _ Hfault) eq_refl).
      * intros [E _]. discriminate.
    + destruct (valid_selector_dec option_type barrier_type) as [Hsel | Hsel].
      * destruct (price_val_valid S K T r sigma H (libm_exp libm (- r * T)) _ _ Hsel)
          as [v ->].
        split; [| tauto].
        destruct (exp_fault (- r * T)) eqn:Hexp; [| discriminate].
        intros E. inversion E; subst.
        destruct (ArithmeticFault_not_selector _ (exp_fault_arithmetic _ _ Hexp) eq_refl).
      * rewrite price_val_invalid by exact Hsel. tauto.
  - intros (ot' & bt' & v & Hv).
    rewrite black_scholes_barrier_option_eq in *. unfold outcome in *.
    destruct (first_fault S K T sigma H); [discriminate |].
    reflexivity.
Qed.

(** C9, as the code has it.  With a valid selector pair the call returns a
    number, and raises nothing, exactly when no operation of lines 26-31
    faults in floating point ([first_fault] finds none: no zero or
    underflowed divisor, no non-positive or underflowed argument of
    math.log, no overflow of sigma**2 or H**2, no negative T) and
    math.exp(-r * T) does not raise.  Positive inputs alone do not ensure
    this. *)
Theorem returns_exactly_when_in_range S K T r sigma H option_type barrier_type :
  valid_selector option_type barrier_type ->
  ((exists v,
       black_scholes_barrier_option S K T r sigma H option_type barrier_type = Return v) <->
   first_fault S K T sigma H = None /\ exp_fault (- r * T) = None) /\
  (first_fault S K T sigma H = None -> exp_fault (- r * T) = None ->
   forall e,
     black_scholes_barrier_option S K T r sigma H option_type barrier_type <> Raise e).
Proof.
  intros Hsel.
  rewrite black_scholes_barrier_option_eq. unfold outcome.
  destruct (price_val_valid S K T r sigma H (libm_exp libm (- r * T)) _ _ Hsel)
    as [v ->].
  destruct (first_fault S K T sigma H).
  - split.
    + split; [intros [v' E]; discriminate | intros [E _]; discriminate].
    + discriminate.
  - destruct (exp_fault (- r * T)).
    + split.
      * split; [intros [v' E]; discriminate | intros [_ E]; discriminate].
      * discriminate.
    + split.
      * split; [tauto | intros _; eexists; reflexivity].
      * intros _ _ e'. discriminate.
Qed.

(** The operations of lines 26-31 fault in this order, each with its own
    exception, whatever the selectors are: [first_fault] lists the tests,
    and the call raises the exception of the first test that fails. *)
Theorem first_fault_raised S K T r sigma H option_type barrier_type e :
  first_fault S K T sigma H = Some e ->
  black_scholes_barrier_option S K T r sigma H option_type barrier_type = Raise e.
Proof.
  intros He. rewrite black_scholes_barrier_option_eq. unfold outcome.
  rewrite He. reflexivity.
Qed.

(** Lines 29 and 31 only matter through their faults: whenever the
    function returns a value, the function without them returns the same
    float. *)
Theorem unused_intermediates_removable_binary64
    S K T r sigma H option_type barrier_type v :
  black_scholes_barrier_option S K T r sigma H option_type barrier_type = Return v ->
  black_scholes_barrier_option_without_x1_y S K T r sigma H option_type barrier_type =
    Return v.
Proof.
  intros Hv.
  assert (Hfault : first_fault S K T sigma H = None).
  { rewrite black_scholes_barrier_option_eq in Hv. unfold outcome in Hv.
    destruct (first_fault S K T sigma H); [discriminate | reflexivity]. }
  rewrite without_x1_y_split, (intermediates_without_x1_y_eq _ _ _ r _ _ Hfault).
  rewrite <- black_scholes_barrier_option_split. exact Hv.
Qed.

(** The four prices as float expressions: when no operation of lines 26-31
    faults and math.exp(-r * T) returns ex, each valid pair returns its
    branch's expression in d1, d2, lambda_, y1 and ex, evaluated left to
    right in floating point. *)
Theorem returned_prices S K T r sigma H :
  first_fault S K T sigma H = None ->
  exp_fault (- r * T) = None ->
  let ex := libm_exp libm (- r * T) in
  black_scholes_barrier_option S K T r sigma H "call" "out" =
    Return (vanilla_call_val S K T r sigma ex - call_term_val S K T r sigma H ex) /\
  black_scholes_barrier_option S K T r sigma H "call" "in" =
    Return (call_term_val S K T r sigma H ex) /\
  black_scholes_barrier_option S K T r sigma H "put" "out" =
    Return (vanilla_put_val S K T r sigma ex - put_term_val S K T r sigma H ex) /\
  black_scholes_barrier_option S K T r sigma H "put" "in" =
    Return (put_term_val S K T r sigma H ex).
Proof.
  intros Hfault Hexp ex.
  rewrite !black_scholes_barrier_option_eq. unfold outcome.
  rewrite Hfault, Hexp. repeat split; reflexivity.
Qed.

End Binary64.

Arguments Return {A} a.
Arguments Raise {A} e.

(** ** Instances *)

(** An instance of the library functions to run the definitions on:
    pow(x, 2.0) as the rounded product x * x, and crude stand-ins for log,
    exp and erf. *)
Definition some_libm : Libm :=
  {| libm_pow := fun x _ => x * x;
     libm_log := fun x => x - 1;
     libm_exp := fun x => 1 + x;
     libm_erf := fun x => x |}.

Lemma valid_call_in : valid_selector "call" "in".
Proof. split; left; reflexivity. Qed.

Lemma invalid_selector_follows_intermediates_witness :
  exists e,
    ArithmeticFault e /\ e <> InvalidSelector /\
    black_scholes_barrier_option some_libm 1 1 0 0 1 1 "straddle" "in" = Raise e.
Proof.
  apply (invalid_selector_follows_intermediates some_libm 1 1 0 0 1 1 "straddle" "in"
           (straddle_invalid "in")).
  - reflexivity.
  - right; left; reflexivity.
Defined.

Lemma degenerate_input_raises_binary64_witness :
  exists e,
    ArithmeticFault e /\
    black_scholes_barrier_option some_libm 1 1 1 0 0 1 "call" "in" = Raise e /\
    forall v, black_scholes_barrier_option some_libm 1 1 1 0 0 1 "call" "in" <> Return v.
Proof.
  apply (degenerate_input_raises_binary64 some_libm 1 1 1 0 0 1 "call" "in" valid_call_in).
  - reflexivity.
  - left; reflexivity.
Defined.

Lemma returns_exactly_when_in_range_witness :
  exists v, black_scholes_barrier_option some_libm 1 1 1 0 1 1 "call" "in" = Return v.
Proof.
  apply (returns_exactly_when_in_range some_libm 1 1 1 0 1 1 "call" "in" valid_call_in).
  split; reflexivity.
Defined.

Lemma first_fault_raised_witness :
  black_scholes_barrier_option some_libm 1 0 1 0 1 1 "call" "in" = Raise ZeroDivisionError.
Proof.
  apply (first_fault_raised some_libm 1 0 1 0 1 1 "call" "in" ZeroDivisionError).
  reflexivity.
Defined.

Lemma unused_intermediates_removable_binary64_witness :
  black_scholes_barrier_option_without_x1_y some_libm 1 1 1 0 1 1 "call" "in" = Return 0.
Proof.
  apply (unused_intermediates_removable_binary64 some_libm 1 1 1 0 1 1 "call" "in" 0).
  reflexivity.
Defined.

Lemma returned_prices_witness :
  black_scholes_barrier_option some_libm 1 1 1 0 1 1 "put" "in" =
    Return (put_term_val some_libm 1 1 1 0 1 1 (libm_exp some_libm (- 0 * 1))).
Proof.
  apply (returned_prices some_libm 1 1 1 0 1 1); reflexivity.
Defined.

(** ** Inputs at which the claims fail *)

(** S = 2^-600 and K = 2^600 are positive, S / K underflows to 0.0, and
    math.log(0.0) raises: no call returns a price, whatever the selectors
    and the library functions are. *)
Lemma quotient_underflow_raises libm option_type barrier_type :
  black_scholes_barrier_option libm 0x1p-600 0x1p+600 1 0 1 1 option_type barrier_type =
  Raise math_domain_error.
Proof. rewrite black_scholes_barrier_option_eq. reflexivity. Qed.

Lemma positive_inputs_parity_counterexample :
  (0 <? 0x1p-600) = true /\ (0 <? 0x1p+600) = true /\ (0 <? 1) = true /\
  forall libm,
    black_scholes_barrier_option libm 0x1p-600 0x1p+600 1 0 1 1 "call" "in" =
      Raise math_domain_error /\
    black_scholes_barrier_option libm 0x1p-600 0x1p+600 1 0 1 1 "call" "out" =
      Raise math_domain_error /\
    vanilla_call libm 0x1p-600 0x1p+600 1 0 1 = Raise math_domain_error.
Proof.
  split; [reflexivity |]. split; [reflexivity |]. split; [reflexivity |].
  intros libm. rewrite !quotient_underflow_raises.
  split; [reflexivity |]. split; reflexivity.
Qed.

Lemma positive_inputs_fault_counterexample :
  (0 <? 0x1p-600) = true /\ (0 <? 0x1p+600) = true /\ (0 <? 1) = true /\
  valid_selector "call" "in" /\
  forall libm,
    black_scholes_barrier_option libm 0x1p-600 0x1p+600 1 0 1 1 "call" "in" =
      Raise math_domain_error /\
    forall v,
      black_scholes_barrier_option libm 0x1p-600 0x1p+600 1 0 1 1 "call" "in" <> Return v.
Proof.
  split; [reflexivity |]. split; [reflexivity |]. split; [reflexivity |].
  split; [exact valid_call_in |].
  intros libm. rewrite quotient_underflow_raises.
  split; [reflexivity | discriminate].
Qed.

(** T = 0 with sigma = 2^700: sigma**2 overflows on line 26, before the
    division by sigma * math.sqrt(0.0) is reached.  This holds for every
    library whose log(1.0) is finite and whose pow(2^700, 2.0) is infinite,
    as the exact values 0 and 2^1400 require. *)
Lemma sigma_overflow_raises libm r option_type barrier_type :
  is_finite (libm_log libm 1) = true ->
  is_infinity (libm_pow libm 0x1p+700 2) = true ->
  black_scholes_barrier_option libm 1 1 0 r 0x1p+700 1 option_type barrier_type =
  Raise OverflowError.
Proof.
  intros Hlog Hpow.
  rewrite black_scholes_barrier_option_eq.
  unfold outcome, first_fault, log_ok, domain_ok, pow_2_ok.
  change (1 / 1) with 1. change (m_log libm 1) with (libm_log libm 1).
  change (abs 0x1p+700) with 0x1p+700.
  unfold is_finite in Hlog.
  destruct (is_nan (libm_log libm 1)); [discriminate |].
  destruct (is_infinity (libm_log libm 1)); [discriminate |].
  rewrite Hpow. reflexivity.
Qed.

Lemma degenerate_overflow_counterexample :
  valid_selector "call" "in" /\
  degenerate 1 1 0 0x1p+700 1 /\
  black_scholes_barrier_option some_libm 1 1 0 0 0x1p+700 1 "call" "in" =
    Raise OverflowError /\
  forall libm,
    is_finite (libm_log libm 1) = true ->
    is_infinity (libm_pow libm 0x1p+700 2) = true ->
    black_scholes_barrier_option libm 1 1 0 0 0x1p+700 1 "call" "in" = Raise OverflowError.
Proof.
  split; [exact valid_call_in |].
  split; [right; left; reflexivity |].
  split; [apply sigma_overflow_raises; reflexivity |].
  intros libm. apply sigma_overflow_raises.
Qed.







(** ** norm_cdf: the exact formula and its evaluation in floating point *)


End F64.
